(** * The operator interface of mxnet (include/mxnet/operator.h)

    A shallow embedding of [class OperatorProperty]: the bodies the base
    class gives to its virtual member functions, virtual dispatch over the
    members a derived class may override, and the member template
    [BackwardInputs], followed by the properties of these definitions. *)

From stdpp Require Import prelude strings.

Local Open Scope Z_scope.

(** ** Vectors and machine integers

    A [std::vector<T>] is a [list T]; [size()] is [length].  An [int] is a
    [Z].  [v[i]] on a vector is [operator[]], which does not check its
    argument: an access at or beyond [size()] is undefined behaviour, and is
    [None] here.  Every function that indexes a vector therefore returns an
    [option], and [None] means that some access was outside its vector. *)

Definition push_back {A} (v : list A) (x : A) : list A := v ++ [x].

(** [ret.insert(ret.end(), xs.begin(), xs.end())]. *)
Definition insert_at_end {A} (ret xs : list A) : list A := ret ++ xs.

(** Width of [size_t], the argument type of [operator[]]. *)
Definition size_t_bits : Z := 64.

(** The conversion of an [int] to [size_t] when it is used as a subscript:
    a non-negative [int] keeps its value, a negative one is reduced modulo
    [2^size_t_bits] and becomes a value of at least [2^63]. *)
Definition size_t_of_int (k : Z) : Z :=
  if bool_decide (0 ≤ k) then k else k `mod` 2 ^ size_t_bits.

(** [v[i]] with [i] of type [size_t]. *)
Definition at_size {A} (v : list A) (i : nat) : option A := v !! i.

(** [v[k]] with [k] of type [int]: [k] is converted to [size_t] first.  The
    comparison with the size decides nothing that the lookup would not; it
    keeps a subscript far out of range from being expanded to a unary
    number when the definition is evaluated. *)
Definition at_int {A} (v : list A) (k : Z) : option A :=
  let i := size_t_of_int k in
  if bool_decide (i < Z.of_nat (length v)) then at_size v (Z.to_nat i)
  else None.

(** [for (size_t i = lo; i < lo + count; ++i) body], threading the local
    state [s]; the loop stops at the first access out of bounds. *)
Fixpoint for_size {St} (lo : nat) (count : nat)
    (body : nat → St → option St) (s : St) : option St :=
  match count with
  | O => Some s
  | S count' => s' ← body lo s; for_size (S lo) count' body s'
  end.

(** ** Shapes and the outcome of shape inference

    [TShape] is declared in base.h, which is not part of this header; the
    header only says that an unknown shape has [ndim() == 0]. *)

(** Modelled from the spec: [TShape] (declared in base.h) is an ordered
    sequence of non-negative dimension sizes, a dimension of zero denotes
    "unknown", and a shape of no dimensions is an unknown shape. *)
Abbreviation TShape := (list N) (only parsing).

(** [bool InferShape(std::vector<TShape> *in_shape, std::vector<TShape>
    *out_shape)] returns a [bool] and leaves the two vectors modified, or
    throws [dmlc::Error]. *)
Inductive InferOutcome : Type :=
  | Returned (ok : bool) (in_shape out_shape : list TShape)
  | Thrown.

(** ** class OperatorProperty *)

Section OperatorProperty.
(** [ResourceRequest] is declared in base.h. *)
Context {ResourceRequest : Type}.

(** An object of a class derived from [OperatorProperty]: its body of the
    pure virtual [InferShape], and for every virtual member function with
    a body in the base class, the derived body ([Some]) or nothing when
    the class does not override it ([None]).  The members without
    arguments are [const]: on one object they return one value. *)
Record OperatorProperty : Type := {
  InferShape : list TShape → list TShape → InferOutcome;
  override_ListArguments : option (list string);
  override_ListReturns : option (list string);
  override_NumReturns : option Z;
  override_NumVisibleReturns : option Z;
  override_ForwardResource : option (list ResourceRequest);
  override_BackwardResource : option (list ResourceRequest);
  override_DeclareBackwardDependency :
    option (list Z → list Z → list Z → list Z);
  override_ForwardInplaceOption :
    option (list Z → list Z → list (Z * Z));
  override_BackwardInplaceOption :
    option (list Z → list Z → list Z → list Z → list (Z * Z));
}.

(** A virtual call: the derived body when there is one, else the body of
    the base class. *)
Definition dispatch {A} (derived : option A) (base : A) : A :=
  match derived with
  | Some f => f
  | None => base
  end.

(** *** Bodies in the base class and the virtual calls *)

Definition OperatorProperty_ListArguments : list string := ["data"%string].

Definition ListArguments (p : OperatorProperty) : list string :=
  dispatch (override_ListArguments p) OperatorProperty_ListArguments.

Definition OperatorProperty_ListReturns : list string := ["output"%string].

Definition ListReturns (p : OperatorProperty) : list string :=
  dispatch (override_ListReturns p) OperatorProperty_ListReturns.

Definition OperatorProperty_NumReturns : Z := 1.

Definition NumReturns (p : OperatorProperty) : Z :=
  dispatch (override_NumReturns p) OperatorProperty_NumReturns.

(** [return NumReturns();], a virtual call on [this]. *)
Definition OperatorProperty_NumVisibleReturns (this : OperatorProperty) : Z :=
  NumReturns this.

Definition NumVisibleReturns (p : OperatorProperty) : Z :=
  dispatch (override_NumVisibleReturns p)
           (OperatorProperty_NumVisibleReturns p).

Definition OperatorProperty_ForwardResource : list ResourceRequest := [].

Definition ForwardResource (p : OperatorProperty) : list ResourceRequest :=
  dispatch (override_ForwardResource p) OperatorProperty_ForwardResource.

Definition OperatorProperty_BackwardResource : list ResourceRequest := [].

Definition BackwardResource (p : OperatorProperty) : list ResourceRequest :=
  dispatch (override_BackwardResource p) OperatorProperty_BackwardResource.

Definition OperatorProperty_DeclareBackwardDependency
    (out_grad in_data out_data : list Z) : list Z :=
  let ret := out_grad in
  let ret := insert_at_end ret in_data in
  let ret := insert_at_end ret out_data in
  ret.

Definition DeclareBackwardDependency (p : OperatorProperty)
    (out_grad in_data out_data : list Z) : list Z :=
  dispatch (override_DeclareBackwardDependency p)
           OperatorProperty_DeclareBackwardDependency
           out_grad in_data out_data.

Definition OperatorProperty_ForwardInplaceOption
    (in_data out_data : list Z) : list (Z * Z) := [].

Definition ForwardInplaceOption (p : OperatorProperty)
    (in_data out_data : list Z) : list (Z * Z) :=
  dispatch (override_ForwardInplaceOption p)
           OperatorProperty_ForwardInplaceOption in_data out_data.

Definition OperatorProperty_BackwardInplaceOption
    (out_grad in_data out_data in_grad : list Z) : list (Z * Z) := [].

Definition BackwardInplaceOption (p : OperatorProperty)
    (out_grad in_data out_data in_grad : list Z) : list (Z * Z) :=
  dispatch (override_BackwardInplaceOption p)
           OperatorProperty_BackwardInplaceOption
           out_grad in_data out_data in_grad.

(** *** BackwardInputs *)

Section BackwardInputs.
Context {T : Type}.

(** One of the three flattening loops, which differ in the vector that
    bounds them and the vector they read:
<<
  for (size_t i = 0; i < size; ++i) {
    idx.push_back(cnt++);
    all_vec.push_back(src[i]);
  }
>>
    The state is [(cnt, all_vec, idx)]. *)
Definition flatten_body (src : list T) (i : nat)
    (s : Z * list T * list Z) : option (Z * list T * list Z) :=
  let '(cnt, all_vec, idx) := s in
  x ← at_size src i;
  Some (cnt + 1, push_back all_vec x, push_back idx cnt).

Definition flatten_loop (src : list T) (size : nat)
    (cnt : Z) (all_vec : list T) : option (Z * list T * list Z) :=
  for_size 0 size (flatten_body src) (cnt, all_vec, []).

(** The selection loop:
<<
  for (size_t i = 0; i < ret_idx.size(); ++i) {
    ret.push_back(all_vec[ret_idx[i]]);
  }
>> *)
Definition select_body (all_vec : list T) (ret_idx : list Z) (i : nat)
    (ret : list T) : option (list T) :=
  k ← at_size ret_idx i;
  x ← at_int all_vec k;
  Some (push_back ret x).

Definition select_loop (all_vec : list T) (ret_idx : list Z)
    : option (list T) :=
  for_size 0 (length ret_idx) (select_body all_vec ret_idx) [].

(** The third loop runs to [out_grad.size()] and reads [out_data[i]];
    the virtual call passes the index vectors in the order
    [(in_data_idx, out_data_idx, out_grad_idx)] to parameters declared
    in the order [(out_grad, in_data, out_data)].  [cnt] is an [int] that
    counts the elements pushed so far; [cnt++] is defined as long as the
    three vectors hold fewer than [2^31] elements together, and the model
    counts in [Z]. *)
Definition BackwardInputs (p : OperatorProperty)
    (in_data out_data out_grad : list T) : option (list T) :=
  let cnt := 0 in
  let all_vec := [] in
  '(cnt, all_vec, in_data_idx) ←
    flatten_loop in_data (length in_data) cnt all_vec;
  '(cnt, all_vec, out_data_idx) ←
    flatten_loop out_data (length out_data) cnt all_vec;
  '(cnt, all_vec, out_grad_idx) ←
    flatten_loop out_data (length out_grad) cnt all_vec;
  let ret_idx :=
    DeclareBackwardDependency p in_data_idx out_data_idx out_grad_idx in
  select_loop all_vec ret_idx.
(** The indices [BackwardInputs] gets back from the virtual call: the
    three index vectors count on from 0 and go in in the order (in_data,
    out_data, out_grad). *)
Definition declared (p : OperatorProperty)
    (in_data out_data out_grad : list T) : list Z :=
  DeclareBackwardDependency p
    (seqZ 0 (Z.of_nat (length in_data)))
    (seqZ (Z.of_nat (length in_data)) (Z.of_nat (length out_data)))
    (seqZ (Z.of_nat (length in_data) + Z.of_nat (length out_data))
          (Z.of_nat (length out_grad))).
End BackwardInputs.
End OperatorProperty.

Arguments OperatorProperty : clear implicits.

(** ** Shape inference in the operator kinds

    [InferShape] is pure virtual: the header has no body for it, only its
    contract.  The bodies live in the classes of the concrete operator
    kinds. *)

(** [zip_with_opt f l k] applies [f] position by position and fails when
    the lengths differ or [f] fails somewhere. *)
Fixpoint zip_with_opt {A B C} (f : A → B → option C)
    (l : list A) (k : list B) : option (list C) :=
  match l, k with
  | [], [] => Some []
  | a :: l', b :: k' =>
      c ← f a b; r ← zip_with_opt f l' k'; Some (c :: r)
  | _, _ => None
  end.

(** Modelled from the spec: an operator's semantic rule (the spec's "a
    weight matrix's shape derived from an input's shape"), the part of a
    concrete kind's [InferShape] that is its own.  From the shapes known so
    far it gives the shape the operator requires of every argument and of
    every return, with zero dimensions or an empty shape where the known
    shapes do not determine it. *)
Definition ShapeRule : Type :=
  list TShape → list TShape → list TShape * list TShape.

(** Modelled from the spec: a dimension is known when it is not zero, and
    a shape when it has dimensions and all of them are known. *)
Definition dim_known (d : N) : bool := negb (d =? 0)%N.

Definition shape_known (s : TShape) : bool :=
  match s with
  | [] => false
  | _ => forallb dim_known s
  end.

(** Modelled from the spec: one dimension under inference.  An unknown
    (zero) dimension is refined to what the rule requires; a known one is
    kept when the rule requires nothing or the same size, and is never
    overwritten: a different required size is an inconsistency ([None]). *)
Definition assign_dim (cur req : N) : option N :=
  if (cur =? 0)%N then Some req
  else if (req =? 0)%N then Some cur
  else if (cur =? req)%N then Some cur
  else None.

(** Modelled from the spec: one shape under inference.  An unknown shape
    takes the required one, a shape the rule says nothing about is kept,
    and two shapes that are both present must have one rank and agree
    dimension by dimension. *)
Definition assign_shape (cur req : TShape) : option TShape :=
  match cur, req with
  | [], _ => Some req
  | _, [] => Some cur
  | _, _ => zip_with_opt assign_dim cur req
  end.

(** Modelled from the spec: one vector of shapes under inference, slot by
    slot.  A slot the vector does not have yet is an unknown shape and is
    filled with the required one (the header: "InferShape will modify the
    vector to fill output TShape"); a slot the rule says nothing about is
    kept.  Only a conflict inside a slot is an inconsistency. *)
Fixpoint assign_shapes (cur req : list TShape) : option (list TShape) :=
  match cur, req with
  | [], _ => Some req
  | _, [] => Some cur
  | s :: cur', r :: req' =>
      s' ← assign_shape s r; rest ← assign_shapes cur' req'; Some (s' :: rest)
  end.

(** Modelled from the spec: the body of [InferShape] in a concrete operator
    kind (the derived classes are not in this header, which declares the
    function pure virtual).  It fills in every unknown shape from the
    operator's rule and validates the known ones against it; it throws when
    known shapes contradict the rule, and otherwise returns whether every
    shape is now fully known, [false] standing for "not enough
    information". *)
Definition InferShape_by_rule (rule : ShapeRule)
    (in_shape out_shape : list TShape) : InferOutcome :=
  let '(req_in, req_out) := rule in_shape out_shape in
  match assign_shapes in_shape req_in,
        assign_shapes out_shape req_out with
  | Some in_shape', Some out_shape' =>
      Returned (forallb shape_known in_shape' && forallb shape_known out_shape')
               in_shape' out_shape'
  | _, _ => Thrown
  end.

(** Modelled from the spec: the rule of the spec's end-to-end scenario, an
    operator of arguments ("data", "weight") and one return: for data of
    shape [(n, k)] the weight has shape [(k, num_hidden)] and the output
    [(n, num_hidden)]. *)
Definition dense_rule (num_hidden : N) : ShapeRule :=
  λ in_shape out_shape,
    match in_shape with
    | [n; k] :: _ => ([[n; k]; [k; num_hidden]], [[n; num_hidden]])
    | _ => ([[0; 0]; [0; num_hidden]], [[0; num_hidden]])
    end%N.

(** The dimension [j] of the shape in slot [i]. *)
Definition dim_at (shapes : list TShape) (i j : nat) : option N :=
  s ← shapes !! i; s !! j.

(** Two present shapes contradict each other: their ranks differ, or some
    dimension is known in both with different sizes. *)
Definition shape_conflict (cur req : TShape) : Prop :=
  cur ≠ [] ∧ req ≠ [] ∧
  (length cur ≠ length req ∨
   ∃ j c r, cur !! j = Some c ∧ req !! j = Some r ∧
            c ≠ 0%N ∧ r ≠ 0%N ∧ c ≠ r).

(** The shape in slot [i], the unknown shape when the vector has no such
    slot. *)
Definition slot (shapes : list TShape) (i : nat) : TShape :=
  default [] (shapes !! i).

(** The known shapes contradict what the rule requires: in some slot the
    shape that is there and the required one are in conflict. *)
Definition contradicts (cur req : list TShape) : Prop :=
  ∃ i, shape_conflict (slot cur i) (slot req i).

(** Neither the shape that is there nor the required one determines the
    shape of a slot: one of them is unknown and the other not fully known,
    or some dimension is zero in both. *)
Definition undetermined (cur req : TShape) : Prop :=
  (cur = [] ∧ req = []) ∨
  (cur = [] ∧ ∃ j, req !! j = Some 0%N) ∨
  (req = [] ∧ ∃ j, cur !! j = Some 0%N) ∨
  (∃ j, cur !! j = Some 0%N ∧ req !! j = Some 0%N).

(** The information is insufficient: some slot, of the vector or of the
    rule, is undetermined. *)
Definition insufficient (cur req : list TShape) : Prop :=
  ∃ i, (i < length cur ∨ i < length req)%nat ∧
       undetermined (slot cur i) (slot req i).

(** A shape is fully known: it has dimensions and none of them is zero. *)
Definition fully_known (s : TShape) : Prop :=
  s ≠ [] ∧ ∀ d, d ∈ s → d ≠ 0%N.

(** Some shape of the vector is not resolved. *)
Definition unresolved (shapes : list TShape) : Prop :=
  ∃ s, s ∈ shapes ∧ ¬ fully_known s.

(** Every dimension known in [old] is there with the same size in [new]. *)
Definition keeps_known (old new : list TShape) : Prop :=
  ∀ i j d, dim_at old i j = Some d → d ≠ 0%N → dim_at new i j = Some d.

(** A dimension whose size differs between [old] and [new] was unknown in
    [old]. *)
Definition only_refines (old new : list TShape) : Prop :=
  ∀ i j d d', dim_at old i j = Some d → dim_at new i j = Some d' →
    d' ≠ d → d = 0%N.

(** The rule requires, of a dimension known in [old], a different known
    size. *)
Definition requires_change (old req : list TShape) : Prop :=
  ∃ i j d r, dim_at old i j = Some d ∧ dim_at req i j = Some r ∧
    d ≠ 0%N ∧ r ≠ 0%N ∧ r ≠ d.

(** ** Objects used in the examples *)

(** An object of a class that overrides nothing and whose [InferShape]
    follows the given rule. *)
Definition plain_property (rule : ShapeRule) : OperatorProperty unit :=
  {| InferShape := InferShape_by_rule rule;
     override_ListArguments := None;
     override_ListReturns := None;
     override_NumReturns := None;
     override_NumVisibleReturns := None;
     override_ForwardResource := None;
     override_BackwardResource := None;
     override_DeclareBackwardDependency := None;
     override_ForwardInplaceOption := None;
     override_BackwardInplaceOption := None |}.

(** The same with an override of [DeclareBackwardDependency]. *)
Definition declaring_property
    (declare : list Z → list Z → list Z → list Z) : OperatorProperty unit :=
  {| InferShape := InferShape_by_rule (dense_rule 16);
     override_ListArguments := None;
     override_ListReturns := None;
     override_NumReturns := None;
     override_NumVisibleReturns := None;
     override_ForwardResource := None;
     override_BackwardResource := None;
     override_DeclareBackwardDependency := Some declare;
     override_ForwardInplaceOption := None;
     override_BackwardInplaceOption := None |}.

(** The same with an override of [NumVisibleReturns]. *)
Definition visible_property (visible : Z) : OperatorProperty unit :=
  {| InferShape := InferShape_by_rule (dense_rule 16);
     override_ListArguments := None;
     override_ListReturns := None;
     override_NumReturns := None;
     override_NumVisibleReturns := Some visible;
     override_ForwardResource := None;
     override_BackwardResource := None;
     override_DeclareBackwardDependency := None;
     override_ForwardInplaceOption := None;
     override_BackwardInplaceOption := None |}.

(** * Properties *)

(** ** Subscripts *)

Lemma size_t_of_int_nonneg k : 0 ≤ size_t_of_int k.
Proof.
  unfold size_t_of_int, size_t_bits. case_bool_decide; [done|].
  apply Z.mod_pos_bound. lia.
Qed.

Lemma size_t_of_int_id k : 0 ≤ k → size_t_of_int k = k.
Proof. intros. unfold size_t_of_int. by rewrite bool_decide_true. Qed.

Lemma size_t_of_int_negative k : - 2 ^ 31 ≤ k < 0 → 2 ^ 63 ≤ size_t_of_int k.
Proof.
  intros Hk. unfold size_t_of_int, size_t_bits.
  rewrite bool_decide_false by lia.
  rewrite <- (Z.mod_add k 1) by lia.
  rewrite Z.mod_small; lia.
Qed.

Lemma at_int_lookup {A} (v : list A) k :
  at_int v k = v !! Z.to_nat (size_t_of_int k).
Proof.
  unfold at_int, at_size. pose proof (size_t_of_int_nonneg k).
  case_bool_decide; [done|].
  symmetry. apply lookup_ge_None. lia.
Qed.

(** A negative [int] used as a subscript is outside every vector of fewer
    than [2^63] elements. *)
Lemma at_int_negative {A} (v : list A) k :
  - 2 ^ 31 ≤ k < 0 → Z.of_nat (length v) < 2 ^ 63 → at_int v k = None.
Proof.
  intros Hk Hv. pose proof (size_t_of_int_negative k Hk).
  unfold at_int. simpl. by rewrite bool_decide_false by lia.
Qed.

Lemma at_int_is_Some {A} (v : list A) k :
  is_Some (at_int v k) ↔ size_t_of_int k < Z.of_nat (length v).
Proof.
  rewrite at_int_lookup, lookup_lt_is_Some.
  pose proof (size_t_of_int_nonneg k). lia.
Qed.

Lemma at_int_seqZ {A} (v : list A) :
  mapM (at_int v) (seqZ 0 (Z.of_nat (length v))) = Some v.
Proof.
  apply mapM_Some, Forall2_same_length_lookup_2.
  - rewrite length_seqZ. lia.
  - intros i k x [-> Hi]%lookup_seqZ Hx.
    rewrite at_int_lookup, size_t_of_int_id by lia.
    by rewrite Z.add_0_l, Nat2Z.id.
Qed.

(** ** The loops of BackwardInputs *)

Section loops.
Context {T : Type}.
Implicit Types (src all_vec ret : list T) (idx ret_idx : list Z).

Lemma flatten_for_size src count : ∀ lo cnt all_vec idx,
  (lo ≤ length src)%nat →
  for_size lo count (flatten_body src) (cnt, all_vec, idx) =
    if decide (lo + count ≤ length src)%nat
    then Some (cnt + Z.of_nat count,
               all_vec ++ take count (drop lo src),
               idx ++ seqZ cnt (Z.of_nat count))
    else None.
Proof.
  induction count as [|count IH]; intros lo cnt all_vec idx Hlo; simpl.
  - rewrite decide_True by lia.
    by rewrite Z.add_0_r, seqZ_nil, !app_nil_r by lia.
  - unfold at_size. destruct (src !! lo) as [x|] eqn:Hx; simpl.
    + apply lookup_lt_Some in Hx as Hlt.
      rewrite IH by lia. unfold push_back.
      destruct (decide (S lo + count ≤ length src)%nat);
        [rewrite decide_True by lia | by rewrite decide_False by lia].
      rewrite (drop_S _ _ _ Hx), (seqZ_cons cnt) by lia. simpl.
      rewrite <- !app_assoc. simpl.
      do 3 f_equal; [lia|]. do 2 f_equal. lia.
    + apply lookup_ge_None in Hx. by rewrite decide_False by lia.
Qed.

Lemma flatten_loop_eq src size cnt all_vec :
  flatten_loop src size cnt all_vec =
    if decide (size ≤ length src)%nat
    then Some (cnt + Z.of_nat size, all_vec ++ take size src,
               seqZ cnt (Z.of_nat size))
    else None.
Proof.
  unfold flatten_loop. rewrite flatten_for_size by lia. simpl.
  by destruct (decide _).
Qed.

Lemma select_for_size all_vec ret_idx count : ∀ lo ret,
  (lo + count ≤ length ret_idx)%nat →
  for_size lo count (select_body all_vec ret_idx) ret =
    (ret ++.) <$> mapM (at_int all_vec) (take count (drop lo ret_idx)).
Proof.
  induction count as [|count IH]; intros lo ret Hle; cbn [for_size].
  - simpl. by rewrite app_nil_r.
  - destruct (lookup_lt_is_Some_2 ret_idx lo) as [k Hk]; [lia|].
    assert (select_body all_vec ret_idx lo ret =
              x ← at_int all_vec k; Some (push_back ret x)) as ->.
    { unfold select_body, at_size. by rewrite Hk. }
    rewrite (drop_S _ _ _ Hk). simpl.
    destruct (at_int all_vec k) as [x|]; simpl; [|done].
    rewrite IH by lia. unfold push_back.
    destruct (mapM _ _) as [r|]; simpl; [|done].
    by rewrite <- app_assoc.
Qed.

Lemma select_loop_eq all_vec ret_idx :
  select_loop all_vec ret_idx = mapM (at_int all_vec) ret_idx.
Proof.
  unfold select_loop. rewrite select_for_size by (simpl; lia).
  rewrite drop_0, firstn_all. by destruct (mapM _ _).
Qed.

End loops.

(** The flattened vector and the index vectors that [BackwardInputs] hands
    to [DeclareBackwardDependency]: the function is the selection, by the
    declared indices, from [in_data ++ out_data] followed by the first
    [out_grad.size()] elements of [out_data]. *)
Lemma BackwardInputs_eq {R T} (p : OperatorProperty R)
    (in_data out_data out_grad : list T) :
  BackwardInputs p in_data out_data out_grad =
    if decide (length out_grad ≤ length out_data)%nat
    then
      mapM (at_int (in_data ++ out_data ++ take (length out_grad) out_data))
        (DeclareBackwardDependency p
           (seqZ 0 (Z.of_nat (length in_data)))
           (seqZ (Z.of_nat (length in_data)) (Z.of_nat (length out_data)))
           (seqZ (Z.of_nat (length in_data) + Z.of_nat (length out_data))
                 (Z.of_nat (length out_grad))))
    else None.
Proof.
  unfold BackwardInputs. rewrite !flatten_loop_eq.
  rewrite decide_True by lia. simpl.
  rewrite flatten_loop_eq, decide_True by lia. simpl.
  rewrite flatten_loop_eq.
  destruct (decide _); simpl; [|done].
  rewrite select_loop_eq, !firstn_all. by rewrite <- app_assoc.
Qed.

(** ** Bodies of the base class *)

(** C2.  An object that does not override [DeclareBackwardDependency]
    returns the three index lists one after the other, [out_grad] then
    [in_data] then [out_data]: the union of the three with nothing dropped
    and nothing merged, so every index occurs in the result as many times
    as in the three lists together, and the result is as long as the three
    together. *)
Theorem DeclareBackwardDependency_default {R} (p : OperatorProperty R)
    (out_grad in_data out_data : list Z) :
  override_DeclareBackwardDependency p = None →
  DeclareBackwardDependency p out_grad in_data out_data
    = out_grad ++ in_data ++ out_data ∧
  (∀ k, count_occ Z.eq_dec
          (DeclareBackwardDependency p out_grad in_data out_data) k
        = (count_occ Z.eq_dec out_grad k + count_occ Z.eq_dec in_data k
           + count_occ Z.eq_dec out_data k)%nat) ∧
  length (DeclareBackwardDependency p out_grad in_data out_data)
    = (length out_grad + length in_data + length out_data)%nat.
Proof.
  intros Hp.
  assert (DeclareBackwardDependency p out_grad in_data out_data
          = out_grad ++ in_data ++ out_data) as ->.
  { unfold DeclareBackwardDependency. rewrite Hp. simpl.
    unfold OperatorProperty_DeclareBackwardDependency, insert_at_end.
    by rewrite <- app_assoc. }
  split_and!; [done| |].
  - intros k. rewrite !count_occ_app. lia.
  - rewrite !length_app. lia.
Qed.

Lemma DeclareBackwardDependency_default_witness :
  override_DeclareBackwardDependency (plain_property (dense_rule 16)) = None ∧
  DeclareBackwardDependency (plain_property (dense_rule 16)) [3; 3] [0; 3] [2]
    = [3; 3; 0; 3; 2].
Proof.
  split; [reflexivity|].
  apply (DeclareBackwardDependency_default
           (plain_property (dense_rule 16)) [3; 3] [0; 3] [2]).
  reflexivity.
Defined.

(** C5, as the header has it.  An object that does not override
    [NumVisibleReturns] reports as many visible returns as returns,
    whatever its [NumReturns] is, so the visible ones are at most the
    returns. *)
Theorem NumVisibleReturns_default {R} (p : OperatorProperty R) :
  override_NumVisibleReturns p = None →
  NumVisibleReturns p = NumReturns p ∧ NumVisibleReturns p ≤ NumReturns p.
Proof.
  intros Hp. unfold NumVisibleReturns. rewrite Hp. simpl.
  unfold OperatorProperty_NumVisibleReturns. lia.
Qed.

Lemma NumVisibleReturns_default_witness :
  override_NumVisibleReturns (plain_property (dense_rule 16)) = None ∧
  NumVisibleReturns (plain_property (dense_rule 16)) = 1.
Proof.
  split; [reflexivity|].
  apply (NumVisibleReturns_default (plain_property (dense_rule 16))).
  reflexivity.
Defined.

(** C5 as stated does not hold: nothing in the header ties an
    override of [NumVisibleReturns] to [NumReturns].  A class that
    overrides the first to return 2 and inherits the second reports 2
    visible returns out of 1. *)
Lemma NumVisibleReturns_override_unbounded :
  NumVisibleReturns (visible_property 2) = 2 ∧
  NumReturns (visible_property 2) = 1 ∧
  ¬ (∀ p : OperatorProperty unit, NumVisibleReturns p ≤ NumReturns p).
Proof.
  split_and!; [reflexivity..|].
  intros H. specialize (H (visible_property 2)). vm_compute in H. by apply H.
Qed.

(** C6.  An object that does not override [ForwardInplaceOption] declares
    no (output, input) pair for the forward pass, and one that does not
    override [BackwardInplaceOption] declares none for the backward pass,
    whatever index lists they are asked about. *)
Theorem InplaceOption_default {R} (p : OperatorProperty R)
    (out_grad in_data out_data in_grad : list Z) :
  (override_ForwardInplaceOption p = None →
   ForwardInplaceOption p in_data out_data = []) ∧
  (override_BackwardInplaceOption p = None →
   BackwardInplaceOption p out_grad in_data out_data in_grad = []).
Proof.
  unfold ForwardInplaceOption, BackwardInplaceOption.
  split; intros ->; reflexivity.
Qed.

Lemma InplaceOption_default_witness :
  override_ForwardInplaceOption (plain_property (dense_rule 16)) = None ∧
  override_BackwardInplaceOption (plain_property (dense_rule 16)) = None ∧
  ForwardInplaceOption (plain_property (dense_rule 16)) [0; 1] [2] = [] ∧
  BackwardInplaceOption (plain_property (dense_rule 16)) [3] [0; 1] [2] [4; 5]
    = [].
Proof.
  split; [reflexivity|]. split; [reflexivity|].
  split;
    apply (InplaceOption_default
             (plain_property (dense_rule 16)) [3] [0; 1] [2] [4; 5]);
    reflexivity.
Defined.

(** C7.  An object that does not override [ForwardResource] requests no
    resource for the forward pass, and one that does not override
    [BackwardResource] requests none for the backward pass. *)
Theorem Resource_default {R} (p : OperatorProperty R) :
  (override_ForwardResource p = None → ForwardResource p = []) ∧
  (override_BackwardResource p = None → BackwardResource p = []).
Proof.
  unfold ForwardResource, BackwardResource.
  split; intros ->; reflexivity.
Qed.

Lemma Resource_default_witness :
  override_ForwardResource (plain_property (dense_rule 16)) = None ∧
  override_BackwardResource (plain_property (dense_rule 16)) = None ∧
  ForwardResource (plain_property (dense_rule 16)) = [] ∧
  BackwardResource (plain_property (dense_rule 16)) = [].
Proof.
  split; [reflexivity|]. split; [reflexivity|].
  split; apply (Resource_default (plain_property (dense_rule 16)));
    reflexivity.
Defined.

(** C8.  An object that does not override [ListArguments] has the one
    argument "data", and one that does not override [ListReturns] has the
    one return "output". *)
Theorem List_default {R} (p : OperatorProperty R) :
  (override_ListArguments p = None → ListArguments p = ["data"%string]) ∧
  (override_ListReturns p = None → ListReturns p = ["output"%string]).
Proof.
  unfold ListArguments, ListReturns.
  split; intros ->; reflexivity.
Qed.

Lemma List_default_witness :
  override_ListArguments (plain_property (dense_rule 16)) = None ∧
  override_ListReturns (plain_property (dense_rule 16)) = None ∧
  ListArguments (plain_property (dense_rule 16)) = ["data"%string] ∧
  ListReturns (plain_property (dense_rule 16)) = ["output"%string].
Proof.
  split; [reflexivity|]. split; [reflexivity|].
  split; apply (List_default (plain_property (dense_rule 16)));
    reflexivity.
Defined.

(** ** BackwardInputs *)

Section BackwardInputs_properties.
Context {R T : Type}.
Implicit Types (p : OperatorProperty R) (in_data out_data out_grad : list T).

(** X14.  When [out_grad] is no longer than [out_data] and every declared
    index addresses a slot of [in_data] or of [out_data] (the first
    [in_data.size() + out_data.size()] positions of the flattened vector),
    [BackwardInputs] returns, in the order of the declaration and once per
    occurrence, the element at each declared position of [in_data]
    followed by [out_data]: the element itself, from the vector whose slot
    the index addresses. *)
Theorem BackwardInputs_selects p in_data out_data out_grad :
  (length out_grad ≤ length out_data)%nat →
  Forall (λ k, size_t_of_int k
               < Z.of_nat (length in_data) + Z.of_nat (length out_data))
         (declared p in_data out_data out_grad) →
  ∃ ret,
    BackwardInputs p in_data out_data out_grad = Some ret ∧
    Forall2 (λ k x, (in_data ++ out_data) !! Z.to_nat (size_t_of_int k)
                    = Some x)
            (declared p in_data out_data out_grad) ret.
Proof.
  intros Hle Hidx. rewrite BackwardInputs_eq, decide_True by done.
  fold (declared p in_data out_data out_grad).
  induction Hidx as [|k ks Hk _ IH]; simpl.
  - exists []. by split.
  - destruct IH as (ret & -> & Hret).
    pose proof (size_t_of_int_nonneg k).
    rewrite at_int_lookup, app_assoc.
    rewrite lookup_app_l by (rewrite length_app; lia).
    destruct (lookup_lt_is_Some_2 (in_data ++ out_data)
                (Z.to_nat (size_t_of_int k))) as [x Hx];
      [rewrite length_app; lia|].
    rewrite Hx. simpl. exists (x :: ret). split; [done|].
    by constructor.
Qed.

(** C9.  For an object that does not override [DeclareBackwardDependency]
    and an [out_grad] no longer than [out_data], [BackwardInputs] returns
    [in_data], then [out_data], then the first [out_grad.size()] elements
    of [out_data]: the positions of [out_grad] hold elements of
    [out_data], and the index vectors reach the declaration in the order
    (in_data, out_data, out_grad), so that the indices it returns are
    0, 1, ... in order. *)
Theorem BackwardInputs_default p in_data out_data out_grad :
  override_DeclareBackwardDependency p = None →
  (length out_grad ≤ length out_data)%nat →
  BackwardInputs p in_data out_data out_grad
    = Some (in_data ++ out_data ++ take (length out_grad) out_data) ∧
  declared p in_data out_data out_grad
    = seqZ 0 (Z.of_nat (length in_data) + Z.of_nat (length out_data)
              + Z.of_nat (length out_grad)).
Proof.
  intros Hp Hle.
  assert (declared p in_data out_data out_grad
          = seqZ 0 (Z.of_nat (length in_data) + Z.of_nat (length out_data)
                    + Z.of_nat (length out_grad))) as Hdecl.
  { unfold declared, DeclareBackwardDependency. rewrite Hp. simpl.
    unfold OperatorProperty_DeclareBackwardDependency, insert_at_end.
    rewrite !seqZ_app by lia. by rewrite Z.add_0_l. }
  split; [|done].
  rewrite BackwardInputs_eq, decide_True by done.
  fold (declared p in_data out_data out_grad). rewrite Hdecl.
  rewrite <- at_int_seqZ. do 2 f_equal.
  rewrite !length_app, length_take. lia.
Qed.

(** C10.  When every index that [DeclareBackwardDependency] returns is,
    as the subscript it is used as, less than [in_data.size() +
    out_data.size() + out_grad.size()], then for [out_grad] no longer than
    [out_data] no access of [BackwardInputs] leaves its vector.  The
    condition on the lengths is what keeps the third flattening loop, which
    runs to [out_grad.size()] and reads [out_data[i]], inside [out_data]:
    that loop stays in bounds exactly when the condition holds, and
    without it [BackwardInputs] makes an access out of bounds. *)
Theorem BackwardInputs_in_bounds p in_data out_data out_grad :
  Forall (λ k, size_t_of_int k
               < Z.of_nat (length in_data) + Z.of_nat (length out_data)
                 + Z.of_nat (length out_grad))
         (declared p in_data out_data out_grad) →
  ((length out_grad ≤ length out_data)%nat →
   is_Some (BackwardInputs p in_data out_data out_grad)) ∧
  (∀ cnt all_vec,
     is_Some (flatten_loop out_data (length out_grad) cnt all_vec)
     ↔ (length out_grad ≤ length out_data)%nat) ∧
  ((length out_data < length out_grad)%nat →
   BackwardInputs p in_data out_data out_grad = None).
Proof.
  intros Hidx. split_and!.
  - intros Hle. rewrite BackwardInputs_eq, decide_True by done.
    fold (declared p in_data out_data out_grad).
    apply mapM_is_Some. eapply Forall_impl; [exact Hidx|].
    intros k Hk. cbv beta in Hk. apply at_int_is_Some.
    rewrite !length_app, length_take. lia.
  - intros cnt all_vec. rewrite flatten_loop_eq.
    destruct (decide _); split; intros H; try done.
  - intros Hlt. by rewrite BackwardInputs_eq, decide_False by lia.
Qed.

End BackwardInputs_properties.

Lemma BackwardInputs_selects_witness :
  (length ["d"%string] ≤ length ["c"%string])%nat ∧
  Forall (λ k, size_t_of_int k < 2 + 1)
         (declared (declaring_property (λ _ in_data _, [0; 2] ++ in_data))
                   ["a"; "b"]%string ["c"%string] ["d"%string]) ∧
  ∃ ret,
    BackwardInputs (declaring_property (λ _ in_data _, [0; 2] ++ in_data))
                   ["a"; "b"]%string ["c"%string] ["d"%string] = Some ret ∧
    Forall2 (λ k x, ["a"; "b"; "c"]%string !! Z.to_nat (size_t_of_int k)
                    = Some x)
            (declared (declaring_property (λ _ in_data _, [0; 2] ++ in_data))
                      ["a"; "b"]%string ["c"%string] ["d"%string]) ret.
Proof.
  assert (Forall (λ k, size_t_of_int k < 2 + 1)
            (declared (declaring_property (λ _ in_data _, [0; 2] ++ in_data))
                      ["a"; "b"]%string ["c"%string] ["d"%string])) as H.
  { repeat constructor. }
  split; [simpl; lia|]. split; [exact H|].
  apply (BackwardInputs_selects
           (declaring_property (λ _ in_data _, [0; 2] ++ in_data))
           ["a"; "b"]%string ["c"%string] ["d"%string]).
  - simpl. lia.
  - exact H.
Defined.

(** C1.  [BackwardInputs] is documented to select "the result list of T
    according to DeclareBackwardDependency": the elements at the declared
    positions of the flattened vector, the slot of [out_grad] yielding the
    element of [out_grad].  The code does not do that.  The loop over
    [out_grad] pushes [out_data[i]], unlike the two loops before it, and
    the call passes the index vectors to the parameters of other names.
    For [in_data = [a, b]], [out_data = [c]], [out_grad = [d]]: the
    declaration of position 0 and the position counted for [out_grad],
    3, selects [[a, c]]; an override written as the documentation of
    [DeclareBackwardDependency] shows, returning [out_grad[0]] and
    [in_data[0]], declares {0, 2} and selects [[a, c]]; the declaration
    {0, 2} selects [[a, c]]; and no declaration at all selects [d], where
    [[a, d]] is what is to be returned. *)
Theorem BackwardInputs_misses_out_grad :
  declared (declaring_property (λ _ _ out_data, 0 :: out_data))
           ["a"; "b"]%string ["c"%string] ["d"%string] = [0; 3] ∧
  BackwardInputs (declaring_property (λ _ _ out_data, 0 :: out_data))
                 ["a"; "b"]%string ["c"%string] ["d"%string]
    = Some ["a"; "c"]%string ∧
  declared (declaring_property
              (λ out_grad in_data _,
                 match out_grad, in_data with
                 | g :: _, i :: _ => [g; i]
                 | _, _ => []
                 end))
           ["a"; "b"]%string ["c"%string] ["d"%string] = [0; 2] ∧
  BackwardInputs (declaring_property
                    (λ out_grad in_data _,
                       match out_grad, in_data with
                       | g :: _, i :: _ => [g; i]
                       | _, _ => []
                       end))
                 ["a"; "b"]%string ["c"%string] ["d"%string]
    = Some ["a"; "c"]%string ∧
  BackwardInputs (declaring_property (λ _ _ _, [0; 2]))
                 ["a"; "b"]%string ["c"%string] ["d"%string]
    = Some ["a"; "c"]%string ∧
  BackwardInputs (declaring_property (λ _ _ _, [0; 2]))
                 ["a"; "b"]%string ["c"%string] ["d"%string]
    ≠ Some ["a"; "d"]%string ∧
  (∀ declare ret,
     BackwardInputs (declaring_property declare)
                    ["a"; "b"]%string ["c"%string] ["d"%string] = Some ret →
     "d"%string ∉ ret).
Proof.
  split_and!; [reflexivity..|discriminate|].
  intros declare ret. rewrite BackwardInputs_eq, decide_True by done.
  intros Hret%mapM_Some_1 [i Hi]%list_elem_of_lookup.
  destruct (Forall2_lookup_r _ _ _ _ _ Hret Hi) as (k & _ & Hk).
  rewrite at_int_lookup in Hk. apply list_elem_of_lookup_2 in Hk.
  simpl in Hk.
  repeat (apply elem_of_cons in Hk as [Hk|Hk]; [discriminate|]).
  by apply not_elem_of_nil in Hk.
Qed.

Lemma BackwardInputs_default_witness :
  override_DeclareBackwardDependency (plain_property (dense_rule 16)) = None ∧
  (length ["d"%string] ≤ length ["c"; "m"]%string)%nat ∧
  BackwardInputs (plain_property (dense_rule 16))
                 ["a"; "b"]%string ["c"; "m"]%string ["d"%string]
    = Some ["a"; "b"; "c"; "m"; "c"]%string.
Proof.
  split; [reflexivity|]. split; [simpl; lia|].
  apply (BackwardInputs_default (plain_property (dense_rule 16))
           ["a"; "b"]%string ["c"; "m"]%string ["d"%string]).
  - reflexivity.
  - simpl. lia.
Defined.

Lemma BackwardInputs_in_bounds_witness :
  Forall (λ k, size_t_of_int k < 2 + 1 + 1)
         (declared (declaring_property (λ _ _ out_data, 1 :: out_data))
                   ["a"; "b"]%string ["c"%string] ["d"%string]) ∧
  is_Some (BackwardInputs (declaring_property (λ _ _ out_data, 1 :: out_data))
                          ["a"; "b"]%string ["c"%string] ["d"%string]).
Proof.
  assert (Forall (λ k, size_t_of_int k < 2 + 1 + 1)
            (declared (declaring_property (λ _ _ out_data, 1 :: out_data))
                      ["a"; "b"]%string ["c"%string] ["d"%string])) as H.
  { repeat constructor. }
  split; [exact H|].
  apply (BackwardInputs_in_bounds
           (declaring_property (λ _ _ out_data, 1 :: out_data))
           ["a"; "b"]%string ["c"%string] ["d"%string]).
  - exact H.
  - simpl. lia.
Defined.

(** ** Shape inference *)

Section zip_with_opt.
Context {A B C : Type} (f : A → B → option C).

Lemma zip_with_opt_Some l : ∀ k r,
  zip_with_opt f l k = Some r →
  length l = length k ∧
  ∀ i a, l !! i = Some a →
    ∃ b c, k !! i = Some b ∧ r !! i = Some c ∧ f a b = Some c.
Proof.
  induction l as [|a l IH]; intros [|b k] r Hr; simplify_eq/=.
  - split; [done|]. intros i a Hi. by rewrite lookup_nil in Hi.
  - destruct (f a b) as [c|] eqn:Hc; simplify_eq/=.
    destruct (zip_with_opt f l k) as [r'|] eqn:Hr'; simplify_eq/=.
    destruct (IH _ _ Hr') as [Hlen Hlook].
    split; [by f_equal|].
    intros [|i] a' Hi; simplify_eq/=; eauto.
Qed.

Lemma zip_with_opt_None l : ∀ k,
  zip_with_opt f l k = None ↔
  length l ≠ length k ∨
  ∃ i a b, l !! i = Some a ∧ k !! i = Some b ∧ f a b = None.
Proof.
  induction l as [|a l IH]; intros [|b k]; simpl.
  - split; [done|]. intros [?|(i & ? & ? & Hi & _)]; [done|].
    by rewrite lookup_nil in Hi.
  - split; [by left|done].
  - split; [by left|done].
  - destruct (f a b) as [c|] eqn:Hc; simpl.
    + destruct (zip_with_opt f l k) as [r|] eqn:Hr; simpl.
      * split; [done|]. intros H.
        assert (zip_with_opt f l k = None) as Hn; [|congruence].
        apply IH. destruct H as [H|([|i] & a' & b' & Ha & Hb & Hf)].
        -- left. intros Hlen. apply H. by f_equal.
        -- simplify_eq/=.
        -- right. exists i, a', b'. by simplify_eq/=.
      * split; [|done]. intros _.
        destruct (proj1 (IH k) Hr) as [H|(i & a' & b' & Ha & Hb & Hf)].
        -- left. intros Hlen. apply H. by injection Hlen.
        -- right. by exists (S i), a', b'.
    + split; [|done]. intros _. right. by exists 0%nat, a, b.
Qed.

Lemma zip_with_opt_length l : ∀ k r,
  zip_with_opt f l k = Some r → length r = length l.
Proof.
  induction l as [|a l IH]; intros [|b k] r Hr; simplify_eq/=; [done|].
  destruct (f a b) as [c|]; simplify_eq/=.
  destruct (zip_with_opt f l k) as [r'|] eqn:Hr'; simplify_eq/=.
  f_equal. eauto.
Qed.

End zip_with_opt.

Lemma assign_dim_None (cur req : N) :
  assign_dim cur req = None ↔ cur ≠ 0%N ∧ req ≠ 0%N ∧ cur ≠ req.
Proof.
  unfold assign_dim.
  destruct (N.eqb_spec cur 0), (N.eqb_spec req 0), (N.eqb_spec cur req);
    split; try done; intros (? & ? & ?); done.
Qed.

Lemma assign_dim_known (cur req d : N) :
  assign_dim cur req = Some d → cur ≠ 0%N → d = cur.
Proof.
  unfold assign_dim.
  destruct (N.eqb_spec cur 0), (N.eqb_spec req 0), (N.eqb_spec cur req);
    intros; by simplify_eq.
Qed.

Lemma assign_shape_None (cur req : TShape) :
  assign_shape cur req = None ↔ shape_conflict cur req.
Proof.
  unfold shape_conflict. destruct cur as [|c cur], req as [|r req].
  - simpl. split; [done|]. by intros [? _].
  - simpl. split; [done|]. by intros [? _].
  - simpl. split; [done|]. by intros (_ & ? & _).
  - change (assign_shape (c :: cur) (r :: req))
      with (zip_with_opt assign_dim (c :: cur) (r :: req)).
    rewrite (zip_with_opt_None assign_dim (c :: cur) (r :: req)).
    setoid_rewrite assign_dim_None. split; [by intros ?|by intros (_ & _ & ?)].
Qed.

Lemma assign_shape_known (cur req new : TShape) j d :
  assign_shape cur req = Some new →
  cur !! j = Some d → d ≠ 0%N → new !! j = Some d.
Proof.
  intros Hnew Hj Hd. destruct cur as [|c cur]; [by rewrite lookup_nil in Hj|].
  destruct req as [|r req]; [by simplify_eq/=|].
  change (zip_with_opt assign_dim (c :: cur) (r :: req) = Some new) in Hnew.
  destruct (zip_with_opt_Some _ _ _ _ Hnew) as [_ Hlook].
  destruct (Hlook _ _ Hj) as (b & d' & _ & Hd' & Hassign).
  by rewrite (assign_dim_known _ _ _ Hassign Hd) in Hd'.
Qed.

Lemma slot_cons_0 (s : TShape) (l : list TShape) : slot (s :: l) 0 = s.
Proof. done. Qed.

Lemma slot_cons_S (s : TShape) (l : list TShape) i :
  slot (s :: l) (S i) = slot l i.
Proof. done. Qed.

Lemma slot_lookup (l : list TShape) i s : l !! i = Some s → slot l i = s.
Proof. unfold slot. by intros ->. Qed.

Lemma assign_shape_nil_r (s : TShape) : assign_shape s [] = Some s.
Proof. by destruct s. Qed.

Lemma assign_shapes_Some cur : ∀ req new,
  assign_shapes cur req = Some new →
  length new = (length cur `max` length req)%nat ∧
  ∀ i s', new !! i = Some s' →
    assign_shape (slot cur i) (slot req i) = Some s'.
Proof.
  induction cur as [|s cur IH]; intros req new Hnew.
  - simpl in Hnew. simplify_eq. split; [done|].
    intros i s' Hi. by rewrite (slot_lookup _ _ _ Hi).
  - destruct req as [|r req].
    + simpl in Hnew. simplify_eq. split; [by rewrite Nat.max_0_r|].
      intros i s' Hi. rewrite (slot_lookup _ _ _ Hi).
      apply assign_shape_nil_r.
    + simpl in Hnew.
      destruct (assign_shape s r) as [s0|] eqn:Hs; simplify_eq/=.
      destruct (assign_shapes cur req) as [rest|] eqn:Hrest; simplify_eq/=.
      destruct (IH _ _ Hrest) as [Hlen Hlook]. split; [by rewrite Hlen|].
      intros [|i] s' Hi; simplify_eq/=; [done|].
      rewrite !slot_cons_S. by apply Hlook.
Qed.

Lemma assign_shapes_is_None cur : ∀ req,
  assign_shapes cur req = None ↔
  ∃ i, assign_shape (slot cur i) (slot req i) = None.
Proof.
  induction cur as [|s cur IH]; intros req.
  - simpl. split; [done|]. by intros [i Hi].
  - destruct req as [|r req].
    + simpl. split; [done|]. intros [i Hi].
      change (slot [] i) with (@nil N) in Hi.
      by rewrite assign_shape_nil_r in Hi.
    + simpl. destruct (assign_shape s r) as [s0|] eqn:Hs; simpl.
      * destruct (assign_shapes cur req) as [rest|] eqn:Hrest; simpl.
        -- split; [done|]. intros [[|i] Hi].
           ++ rewrite !slot_cons_0 in Hi. congruence.
           ++ rewrite !slot_cons_S in Hi.
              assert (assign_shapes cur req = None) by (apply IH; eauto).
              congruence.
        -- split; [|done]. intros _.
           destruct (proj1 (IH req) Hrest) as [i Hi]. by exists (S i).
      * split; [|done]. intros _. by exists 0%nat.
Qed.

(** Inference over one vector of shapes keeps every known dimension. *)
Lemma assign_shapes_known (cur req new : list TShape) i j d :
  assign_shapes cur req = Some new →
  dim_at cur i j = Some d → d ≠ 0%N → dim_at new i j = Some d.
Proof.
  unfold dim_at. intros Hnew Hij Hd.
  destruct (cur !! i) as [s|] eqn:Hs; simplify_eq/=.
  destruct (assign_shapes_Some _ _ _ Hnew) as [Hlen Hlook].
  apply lookup_lt_Some in Hs as Hlt.
  destruct (lookup_lt_is_Some_2 new i) as [s' Hs']; [lia|].
  rewrite Hs'. simpl. specialize (Hlook _ _ Hs').
  rewrite (slot_lookup _ _ _ Hs) in Hlook.
  eauto using assign_shape_known.
Qed.

(** Inference over one vector of shapes fails when the rule requires, of
    a known dimension, a different known size. *)
Lemma assign_shapes_conflict (cur req : list TShape) i j d r :
  dim_at cur i j = Some d → dim_at req i j = Some r →
  d ≠ 0%N → r ≠ 0%N → r ≠ d →
  assign_shapes cur req = None.
Proof.
  unfold dim_at. intros Hd Hr Hd0 Hr0 Hne.
  destruct (cur !! i) as [s|] eqn:Hs; simplify_eq/=.
  destruct (req !! i) as [s'|] eqn:Hs'; simplify_eq/=.
  apply assign_shapes_is_None. exists i.
  rewrite (slot_lookup _ _ _ Hs), (slot_lookup _ _ _ Hs').
  apply assign_shape_None. split_and!.
  - intros ->. by rewrite lookup_nil in Hd.
  - intros ->. by rewrite lookup_nil in Hr.
  - right. exists j, d, r. by split_and!.
Qed.

Lemma assign_shapes_None (cur req : list TShape) :
  assign_shapes cur req = None ↔ contradicts cur req.
Proof.
  unfold contradicts. rewrite assign_shapes_is_None.
  by setoid_rewrite assign_shape_None.
Qed.

Lemma shape_known_fully_known (s : TShape) :
  shape_known s = true ↔ fully_known s.
Proof.
  unfold fully_known. destruct s as [|d s].
  { split; [done|]. by intros [? _]. }
  change (shape_known (d :: s)) with (forallb dim_known (d :: s)).
  rewrite forallb_forall. setoid_rewrite <- list_elem_of_In.
  unfold dim_known. setoid_rewrite negb_true_iff.
  setoid_rewrite N.eqb_neq. split; [by split|by intros [_ ?]].
Qed.

Lemma forallb_false {A} (f : A → bool) (l : list A) :
  forallb f l = false ↔ ∃ x, x ∈ l ∧ f x = false.
Proof.
  induction l as [|a l IH]; simpl.
  - split; [done|]. intros (x & Hx & _). by apply not_elem_of_nil in Hx.
  - rewrite andb_false_iff, IH. setoid_rewrite elem_of_cons. split.
    + intros [Ha|(x & Hx & Hf)]; [exists a|exists x]; auto.
    + intros (x & [->|Hx] & Hf); [by left|right; by exists x].
Qed.

Lemma assign_dim_zero (cur req : N) :
  assign_dim cur req = Some 0%N ↔ cur = 0%N ∧ req = 0%N.
Proof.
  unfold assign_dim.
  destruct (N.eqb_spec cur 0), (N.eqb_spec req 0), (N.eqb_spec cur req);
    split; intros; destruct_and?; by simplify_eq.
Qed.

Lemma forallb_dim_known_false (s : list N) :
  forallb dim_known s = false ↔ ∃ j, s !! j = Some 0%N.
Proof.
  rewrite forallb_false. split.
  - intros (d & [j Hj]%list_elem_of_lookup & Hd).
    unfold dim_known in Hd. apply negb_false_iff, N.eqb_eq in Hd.
    exists j. by rewrite <- Hd.
  - intros [j Hj]. exists 0%N. split; [|done].
    by eapply list_elem_of_lookup_2.
Qed.

(** The shape a slot gets is not fully known exactly when neither side
    determines it. *)
Lemma assign_shape_undetermined (cur req new : TShape) :
  assign_shape cur req = Some new →
  shape_known new = false ↔ undetermined cur req.
Proof.
  unfold undetermined. intros Hnew.
  destruct cur as [|c cur].
  { simpl in Hnew. simplify_eq. destruct new as [|r new].
    - split; [by left|done].
    - change (shape_known (r :: new)) with (forallb dim_known (r :: new)).
      rewrite forallb_dim_known_false. split.
      + intros ?. right. by left.
      + by intros [[_ ?]|[[_ ?]|[[? _]|(j & Hj & _)]]]. }
  destruct req as [|r req].
  { simpl in Hnew. simplify_eq.
    change (shape_known (c :: cur)) with (forallb dim_known (c :: cur)).
    rewrite forallb_dim_known_false. split.
    - intros ?. right. right. by left.
    - by intros [[? _]|[[? _]|[[_ ?]|(j & _ & Hj)]]]. }
  change (zip_with_opt assign_dim (c :: cur) (r :: req) = Some new) in Hnew.
  pose proof (zip_with_opt_length _ _ _ _ Hnew) as Hlen.
  destruct (zip_with_opt_Some _ _ _ _ Hnew) as [_ Hlook].
  destruct new as [|n new]; [done|].
  change (shape_known (n :: new)) with (forallb dim_known (n :: new)).
  rewrite forallb_dim_known_false. split.
  - intros [j Hj]. right. right. right. exists j.
    destruct (lookup_lt_is_Some_2 (c :: cur) j) as [a Ha].
    { apply lookup_lt_Some in Hj. lia. }
    destruct (Hlook _ _ Ha) as (b & d & Hb & Hd & Hassign).
    rewrite Hj in Hd. simplify_eq.
    apply assign_dim_zero in Hassign as [-> ->]. done.
  - intros [[? _]|[[? _]|[[? _]|(j & Ha & Hb)]]]; try done.
    destruct (Hlook _ _ Ha) as (b & d & Hb' & Hd & Hassign).
    rewrite Hb in Hb'. simplify_eq.
    exists j. rewrite Hd. f_equal.
    assert (assign_dim 0 0 = Some 0%N) as H0 by done. congruence.
Qed.

(** The vector of shapes after inference has a shape not fully known
    exactly when the information was insufficient. *)
Lemma assign_shapes_insufficient (cur req new : list TShape) :
  assign_shapes cur req = Some new →
  forallb shape_known new = false ↔ insufficient cur req.
Proof.
  intros Hnew. destruct (assign_shapes_Some _ _ _ Hnew) as [Hlen Hlook].
  rewrite forallb_false. unfold insufficient. split.
  - intros (s' & [i Hi]%list_elem_of_lookup & Hs').
    exists i. split; [apply lookup_lt_Some in Hi; lia|].
    by apply (assign_shape_undetermined _ _ s'); auto.
  - intros (i & Hi & Hund).
    destruct (lookup_lt_is_Some_2 new i) as [s' Hs']; [lia|].
    exists s'. split; [by eapply list_elem_of_lookup_2|].
    by apply (assign_shape_undetermined (slot cur i) (slot req i)); auto.
Qed.

Lemma keeps_known_only_refines (old new : list TShape) :
  keeps_known old new → only_refines old new.
Proof.
  intros Hkeep i j d d' Hd Hd' Hne.
  destruct (decide (d = 0%N)) as [|Hd0]; [done|].
  specialize (Hkeep i j d Hd Hd0). congruence.
Qed.

Lemma InferShape_by_rule_Returned rule in_shape out_shape ok in' out' :
  InferShape_by_rule rule in_shape out_shape = Returned ok in' out' →
  assign_shapes in_shape (rule in_shape out_shape).1 = Some in' ∧
  assign_shapes out_shape (rule in_shape out_shape).2 = Some out' ∧
  ok = forallb shape_known in' && forallb shape_known out'.
Proof.
  unfold InferShape_by_rule.
  destruct (rule in_shape out_shape) as [req_in req_out]. simpl.
  destruct (assign_shapes in_shape req_in);
    destruct (assign_shapes out_shape req_out);
    intros; by simplify_eq.
Qed.

Lemma InferShape_by_rule_Thrown rule in_shape out_shape :
  InferShape_by_rule rule in_shape out_shape = Thrown ↔
  assign_shapes in_shape (rule in_shape out_shape).1 = None ∨
  assign_shapes out_shape (rule in_shape out_shape).2 = None.
Proof.
  unfold InferShape_by_rule.
  destruct (rule in_shape out_shape) as [req_in req_out]. simpl.
  destruct (assign_shapes in_shape req_in);
    destruct (assign_shapes out_shape req_out);
    split; try done; try (by left); try (by right).
  by intros [|].
Qed.

(** The end-to-end scenario of the specification: data of shape (4, 8),
    an unknown weight and an unknown output resolve to (8, 16) and
    (4, 16). *)
Example InferShape_dense_scenario :
  InferShape (plain_property (dense_rule 16)) [[4; 8]; []]%N [[]]
    = Returned true [[4; 8]; [8; 16]]%N [[4; 16]]%N.
Proof. reflexivity. Qed.

(** The same with a vector of output shapes that has no slot yet. *)
Example InferShape_dense_scenario_empty_out :
  InferShape (plain_property (dense_rule 16)) [[4; 8]; []]%N []
    = Returned true [[4; 8]; [8; 16]]%N [[4; 16]]%N.
Proof. reflexivity. Qed.

(** C3.  In an operator kind whose [InferShape] follows the discipline
    above, for every rule and every pair of shape vectors: when the
    function returns, every dimension that was known (non-zero) before is
    there unchanged, in the arguments and in the returns, so a dimension
    changes only from unknown (zero) to a size; and when the rule requires
    of a known dimension a different known size, the function does not
    return but throws. *)
Theorem InferShape_monotonic {R} (p : OperatorProperty R) (rule : ShapeRule)
    (in_shape out_shape : list TShape) :
  InferShape p = InferShape_by_rule rule →
  (∀ ok in_shape' out_shape',
     InferShape p in_shape out_shape = Returned ok in_shape' out_shape' →
     keeps_known in_shape in_shape' ∧ keeps_known out_shape out_shape' ∧
     only_refines in_shape in_shape' ∧ only_refines out_shape out_shape') ∧
  (requires_change in_shape (rule in_shape out_shape).1 ∨
   requires_change out_shape (rule in_shape out_shape).2 →
   InferShape p in_shape out_shape = Thrown).
Proof.
  intros ->. split.
  - intros ok in' out' (Hin & Hout & _)%InferShape_by_rule_Returned.
    assert (keeps_known in_shape in' ∧ keeps_known out_shape out') as [??].
    { split; intros i j d ??; eauto using assign_shapes_known. }
    split_and!; auto using keeps_known_only_refines.
  - intros H. apply InferShape_by_rule_Thrown.
    destruct H as [(i & j & d & r & ? & ? & ? & ? & ?)
                  |(i & j & d & r & ? & ? & ? & ? & ?)];
      [left|right]; eauto using assign_shapes_conflict.
Qed.

(** C4.  In an operator kind whose [InferShape] follows the discipline
    above, for every rule and every pair of shape vectors: the function
    throws exactly when the known shapes contradict what the rule
    requires; it returns [false] exactly when they do not and the
    information is insufficient, some slot being determined neither by the
    shape that is there nor by the rule; and it returns [true] exactly
    when there is neither contradiction nor insufficiency.  So a
    contradiction is never answered with [false], and [false] means that
    some shape of the result is still not fully known. *)
Theorem InferShape_outcome {R} (p : OperatorProperty R) (rule : ShapeRule)
    (in_shape out_shape : list TShape) :
  InferShape p = InferShape_by_rule rule →
  (InferShape p in_shape out_shape = Thrown ↔
   contradicts in_shape (rule in_shape out_shape).1 ∨
   contradicts out_shape (rule in_shape out_shape).2) ∧
  ((∃ in_shape' out_shape',
      InferShape p in_shape out_shape = Returned false in_shape' out_shape') ↔
   ¬ (contradicts in_shape (rule in_shape out_shape).1 ∨
      contradicts out_shape (rule in_shape out_shape).2) ∧
   (insufficient in_shape (rule in_shape out_shape).1 ∨
    insufficient out_shape (rule in_shape out_shape).2)) ∧
  ((∃ in_shape' out_shape',
      InferShape p in_shape out_shape = Returned true in_shape' out_shape') ↔
   ¬ (contradicts in_shape (rule in_shape out_shape).1 ∨
      contradicts out_shape (rule in_shape out_shape).2) ∧
   ¬ (insufficient in_shape (rule in_shape out_shape).1 ∨
      insufficient out_shape (rule in_shape out_shape).2)) ∧
  (∀ ok in_shape' out_shape',
     InferShape p in_shape out_shape = Returned ok in_shape' out_shape' →
     (ok = false ↔ unresolved (in_shape' ++ out_shape'))).
Proof.
  intros ->.
  assert (InferShape_by_rule rule in_shape out_shape = Thrown ↔
          contradicts in_shape (rule in_shape out_shape).1 ∨
          contradicts out_shape (rule in_shape out_shape).2) as Hthrown.
  { by rewrite InferShape_by_rule_Thrown, !assign_shapes_None. }
  assert (∀ ok in' out',
            InferShape_by_rule rule in_shape out_shape = Returned ok in' out' →
            ok = false ↔
            insufficient in_shape (rule in_shape out_shape).1 ∨
            insufficient out_shape (rule in_shape out_shape).2) as Hfalse.
  { intros ok in' out' (Hin & Hout & ->)%InferShape_by_rule_Returned.
    rewrite andb_false_iff.
    by rewrite (assign_shapes_insufficient _ _ _ Hin),
      (assign_shapes_insufficient _ _ _ Hout). }
  split_and!; [done| | |].
  - split.
    + intros (in' & out' & Hret). split.
      * rewrite <- Hthrown. congruence.
      * by apply (Hfalse false in' out').
    + intros [Hcon Hins].
      destruct (InferShape_by_rule rule in_shape out_shape)
        as [ok in' out'|] eqn:Hret.
      * exists in', out'. f_equal. by apply (Hfalse ok in' out').
      * destruct Hcon. by apply Hthrown.
  - split.
    + intros (in' & out' & Hret). split.
      * rewrite <- Hthrown. congruence.
      * intros Hins. by apply (Hfalse true in' out') in Hins.
    + intros [Hcon Hins].
      destruct (InferShape_by_rule rule in_shape out_shape)
        as [ok in' out'|] eqn:Hret.
      * exists in', out'. f_equal. destruct ok; [done|].
        destruct Hins. by apply (Hfalse false in' out').
      * destruct Hcon. by apply Hthrown.
  - intros ok in' out' (_ & _ & ->)%InferShape_by_rule_Returned.
    rewrite <- forallb_app, forallb_false. unfold unresolved.
    split; intros (s & Hs & Hk); exists s; (split; [done|]).
    + rewrite <- shape_known_fully_known. by rewrite Hk.
    + rewrite <- shape_known_fully_known in Hk. by destruct (shape_known s).
Qed.

Lemma InferShape_monotonic_witness :
  InferShape (plain_property (dense_rule 16))
    = InferShape_by_rule (dense_rule 16) ∧
  keeps_known [[4; 8]; [0; 16]]%N [[4; 8]; [8; 16]]%N ∧
  InferShape (plain_property (dense_rule 16)) [[4; 8]; [8; 3]]%N [[]]
    = Thrown.
Proof.
  split; [reflexivity|].
  destruct (InferShape_monotonic (plain_property (dense_rule 16))
              (dense_rule 16) [[4; 8]; [0; 16]]%N [[]] eq_refl) as [Hret _].
  destruct (InferShape_monotonic (plain_property (dense_rule 16))
              (dense_rule 16) [[4; 8]; [8; 3]]%N [[]] eq_refl) as [_ Hthrow].
  split.
  - apply (Hret true [[4; 8]; [8; 16]]%N [[4; 16]]%N). reflexivity.
  - apply Hthrow. left. exists 1%nat, 1%nat, 3%N, 16%N.
    split_and!; [reflexivity|reflexivity|done..].
Defined.

Lemma InferShape_outcome_witness :
  InferShape (plain_property (dense_rule 16))
    = InferShape_by_rule (dense_rule 16) ∧
  (insufficient [[4; 0]; []]%N [[4; 0]; [0; 16]]%N ∨
   insufficient [] [[4; 16]]%N) ∧
  InferShape (plain_property (dense_rule 16)) [[4; 8]; [5; 16]]%N []
    = Thrown.
Proof.
  split; [reflexivity|].
  destruct (InferShape_outcome (plain_property (dense_rule 16))
              (dense_rule 16) [[4; 0]; []]%N [] eq_refl)
    as (_ & Hfalse & _).
  destruct (InferShape_outcome (plain_property (dense_rule 16))
              (dense_rule 16) [[4; 8]; [5; 16]]%N [] eq_refl)
    as (Hthrow & _).
  split.
  - apply Hfalse.
    exists [[4; 0]; [0; 16]]%N, [[4; 16]]%N. reflexivity.
  - apply Hthrow. left. exists 1%nat.
    split_and!; [done|done|].
    right. exists 0%nat, 5%N, 8%N. split_and!; [reflexivity|reflexivity|done..].
Defined.

(** * Further properties of BackwardInputs *)

(** ** Selection by subscript *)

Lemma at_int_Some_elem_of {A} (v : list A) k x : at_int v k = Some x → x ∈ v.
Proof. rewrite at_int_lookup. apply list_elem_of_lookup_2. Qed.

Lemma mapM_app_opt {A B} (g : A → option B) (l1 l2 : list A) :
  mapM g (l1 ++ l2) = r1 ← mapM g l1; r2 ← mapM g l2; Some (r1 ++ r2).
Proof.
  induction l1 as [|a l1 IH]; simpl.
  - by destruct (mapM g l2).
  - destruct (g a) as [b|]; simpl; [|done]. rewrite IH.
    destruct (mapM g l1) as [r1|]; simpl; [|done].
    by destruct (mapM g l2).
Qed.

(** Selecting the positions of the middle part of a vector returns that
    part. *)
Lemma at_int_seqZ_mid {A} (a b c : list A) :
  mapM (at_int (a ++ b ++ c))
       (seqZ (Z.of_nat (length a)) (Z.of_nat (length b))) = Some b.
Proof.
  apply mapM_Some, Forall2_same_length_lookup_2.
  - rewrite length_seqZ. lia.
  - intros i k x [-> Hi]%lookup_seqZ Hx.
    rewrite at_int_lookup, size_t_of_int_id by lia.
    replace (Z.to_nat (Z.of_nat (length a) + Z.of_nat i))
      with (length a + i)%nat by lia.
    rewrite lookup_app_r by lia.
    replace (length a + i - length a)%nat with i by lia.
    rewrite lookup_app_l by lia. done.
Qed.

Section BackwardInputs_further.
Context {R T : Type}.
Implicit Types (p : OperatorProperty R) (in_data out_data out_grad : list T).

(** X1.  The flattening loops over [in_data] and over [out_data] are
    bounded by the vector they read: they never leave it, append the whole
    vector to [all_vec] and produce the consecutive indices from [cnt]
    on. *)
Theorem flatten_loop_whole (src : list T) (cnt : Z) (all_vec : list T) :
  flatten_loop src (length src) cnt all_vec
    = Some (cnt + Z.of_nat (length src), all_vec ++ src,
            seqZ cnt (Z.of_nat (length src))).
Proof.
  rewrite flatten_loop_eq, decide_True by done. by rewrite firstn_all.
Qed.

Lemma BackwardInputs_is_Some p in_data out_data out_grad :
  is_Some (BackwardInputs p in_data out_data out_grad) ↔
  (length out_grad ≤ length out_data)%nat ∧
  Forall (λ k, size_t_of_int k
               < Z.of_nat (length in_data) + Z.of_nat (length out_data)
                 + Z.of_nat (length out_grad))
         (declared p in_data out_data out_grad).
Proof.
  rewrite BackwardInputs_eq. fold (declared p in_data out_data out_grad).
  destruct (decide _) as [Hle|Hgt].
  - rewrite mapM_is_Some. split.
    + intros H. split; [done|]. eapply Forall_impl; [exact H|].
      intros k Hk. unfold compose in Hk. apply at_int_is_Some in Hk.
      rewrite !length_app, length_take in Hk. cbv beta. lia.
    + intros [_ H]. eapply Forall_impl; [exact H|].
      intros k Hk. cbv beta in Hk. unfold compose. apply at_int_is_Some.
      rewrite !length_app, length_take. lia.
  - split; [by intros [? ?]|]. intros [? _]. lia.
Qed.

Lemma declared_default p in_data out_data out_grad :
  override_DeclareBackwardDependency p = None →
  declared p in_data out_data out_grad
    = seqZ 0 (Z.of_nat (length in_data + length out_data + length out_grad)).
Proof.
  intros Hp. unfold declared, DeclareBackwardDependency. rewrite Hp. simpl.
  unfold OperatorProperty_DeclareBackwardDependency, insert_at_end.
  rewrite !Nat2Z.inj_add, !seqZ_app by lia. by rewrite Z.add_0_l.
Qed.

Lemma BackwardInputs_default_is_Some p in_data out_data out_grad :
  override_DeclareBackwardDependency p = None →
  is_Some (BackwardInputs p in_data out_data out_grad)
  ↔ (length out_grad ≤ length out_data)%nat.
Proof.
  intros Hp. rewrite BackwardInputs_is_Some, declared_default by done.
  split; [by intros [? _]|]. intros Hle. split; [done|].
  apply Forall_seqZ. intros k ?. rewrite size_t_of_int_id; lia.
Qed.

(** X2.  [BackwardInputs] stays inside its vectors exactly when [out_grad]
    is no longer than [out_data] and every declared index, as a subscript,
    is below the size of the flattened vector; in every other call some
    access is out of bounds. *)
Theorem BackwardInputs_defined_iff p in_data out_data out_grad :
  is_Some (BackwardInputs p in_data out_data out_grad) ↔
  (length out_grad ≤ length out_data)%nat ∧
  Forall (λ k, size_t_of_int k
               < Z.of_nat (length in_data) + Z.of_nat (length out_data)
                 + Z.of_nat (length out_grad))
         (declared p in_data out_data out_grad).
Proof. apply BackwardInputs_is_Some. Qed.

(** X3.  The elements of [out_grad] are never read: the result depends on
    [out_grad] through its size only. *)
Theorem BackwardInputs_ignores_out_grad p in_data out_data out_grad
    (out_grad' : list T) :
  length out_grad = length out_grad' →
  BackwardInputs p in_data out_data out_grad
    = BackwardInputs p in_data out_data out_grad'.
Proof. intros Hlen. rewrite !BackwardInputs_eq. by rewrite Hlen. Qed.

(** X4.  Whatever is declared, every element that [BackwardInputs]
    returns is an element of [in_data] or of [out_data]. *)
Theorem BackwardInputs_elements p in_data out_data out_grad ret x :
  BackwardInputs p in_data out_data out_grad = Some ret →
  x ∈ ret → x ∈ in_data ∨ x ∈ out_data.
Proof.
  rewrite BackwardInputs_eq. destruct (decide _); [|done].
  intros Hret%mapM_Some_1 Hx.
  apply list_elem_of_lookup in Hx as [i Hi].
  destruct (Forall2_lookup_r _ _ _ _ _ Hret Hi) as (k & _ & Hk).
  apply at_int_Some_elem_of in Hk.
  rewrite !elem_of_app in Hk. destruct Hk as [?|[?|Hk]]; auto.
  right. by eapply subseteq_take.
Qed.

(** X5.  When [BackwardInputs] returns, it returns one element for every
    declared index, repeated indices included. *)
Theorem BackwardInputs_length p in_data out_data out_grad ret :
  BackwardInputs p in_data out_data out_grad = Some ret →
  length ret = length (declared p in_data out_data out_grad).
Proof.
  rewrite BackwardInputs_eq. destruct (decide _); [|done].
  intros Hret%length_mapM. done.
Qed.

(** X6.  A negative declared index is an access out of bounds, for
    vectors of fewer than [2^63] elements together: converted to the
    subscript type it lies beyond the flattened vector. *)
Theorem BackwardInputs_negative_index p in_data out_data out_grad k :
  k ∈ declared p in_data out_data out_grad →
  - 2 ^ 31 ≤ k < 0 →
  Z.of_nat (length in_data) + Z.of_nat (length out_data)
    + Z.of_nat (length out_grad) < 2 ^ 63 →
  BackwardInputs p in_data out_data out_grad = None.
Proof.
  intros Hk Hneg Hsize.
  destruct (BackwardInputs p in_data out_data out_grad) eqn:Hret; [|done].
  destruct (proj1 (BackwardInputs_is_Some p in_data out_data out_grad))
    as [_ Hall]; [by rewrite Hret|].
  rewrite Forall_forall in Hall. specialize (Hall k Hk).
  pose proof (size_t_of_int_negative k Hneg). lia.
Qed.

(** X7.  The virtual call passes (in_data, out_data, out_grad) indices to
    parameters named (out_grad, in_data, out_data).  So, for [out_grad] no
    longer than [out_data], an override that returns its parameter
    [out_grad] selects [in_data], one that returns its parameter [in_data]
    selects [out_data], and one that returns its parameter [out_data]
    selects the first [out_grad.size()] elements of [out_data]. *)
Theorem BackwardInputs_parameter_roles p in_data out_data out_grad :
  (length out_grad ≤ length out_data)%nat →
  (override_DeclareBackwardDependency p
     = Some (λ out_grad _ _ : list Z, out_grad) →
   BackwardInputs p in_data out_data out_grad = Some in_data) ∧
  (override_DeclareBackwardDependency p
     = Some (λ _ in_data _ : list Z, in_data) →
   BackwardInputs p in_data out_data out_grad = Some out_data) ∧
  (override_DeclareBackwardDependency p
     = Some (λ _ _ out_data : list Z, out_data) →
   BackwardInputs p in_data out_data out_grad
     = Some (take (length out_grad) out_data)).
Proof.
  intros Hle. rewrite BackwardInputs_eq, decide_True by done.
  unfold DeclareBackwardDependency. split_and!; intros ->; simpl.
  - apply (at_int_seqZ_mid [] in_data).
  - apply at_int_seqZ_mid.
  - pose proof (at_int_seqZ_mid (in_data ++ out_data)
                  (take (length out_grad) out_data) []) as H.
    rewrite app_nil_r, <- app_assoc, length_app, length_take in H.
    rewrite Nat.min_l, Nat2Z.inj_add in H by done. exact H.
Qed.

(** X9.  Declarations compose: when the override of one object returns
    the indices of a second followed by those of a third, its selection is
    the selection of the second followed by that of the third, and is out
    of bounds when either of them is. *)
Theorem BackwardInputs_app p (p1 p2 : OperatorProperty R)
    in_data out_data out_grad :
  (∀ og id od,
     DeclareBackwardDependency p og id od
     = DeclareBackwardDependency p1 og id od
       ++ DeclareBackwardDependency p2 og id od) →
  BackwardInputs p in_data out_data out_grad
    = r1 ← BackwardInputs p1 in_data out_data out_grad;
      r2 ← BackwardInputs p2 in_data out_data out_grad;
      Some (r1 ++ r2).
Proof.
  intros Hp. rewrite !BackwardInputs_eq.
  destruct (decide _); [|done]. by rewrite Hp, mapM_app_opt.
Qed.

(** X10.  For an object that does not override
    [DeclareBackwardDependency], the only access that can leave its vector
    is [out_data[i]] in the third loop: [BackwardInputs] stays in bounds
    exactly when [out_grad] is no longer than [out_data]. *)
Theorem BackwardInputs_default_defined_iff p in_data out_data out_grad :
  override_DeclareBackwardDependency p = None →
  is_Some (BackwardInputs p in_data out_data out_grad)
  ↔ (length out_grad ≤ length out_data)%nat.
Proof.
  apply BackwardInputs_default_is_Some.
Qed.

(** X11.  Under the convention of [Operator::Backward], [out_grad.size()
    == NumVisibleReturns()] and [out_data.size() == NumReturns()], an
    object that does not override [DeclareBackwardDependency] has its
    [BackwardInputs] in bounds exactly when [NumVisibleReturns() <=
    NumReturns()]: an override of [NumVisibleReturns] that exceeds
    [NumReturns] makes the third loop read beyond [out_data]. *)
Theorem BackwardInputs_convention p in_data out_data out_grad :
  override_DeclareBackwardDependency p = None →
  Z.of_nat (length out_grad) = NumVisibleReturns p →
  Z.of_nat (length out_data) = NumReturns p →
  is_Some (BackwardInputs p in_data out_data out_grad)
  ↔ NumVisibleReturns p ≤ NumReturns p.
Proof.
  intros Hp Hgrad Hdata. rewrite BackwardInputs_default_is_Some by done. lia.
Qed.

(** X12.  Under the same convention, an object that overrides neither
    [DeclareBackwardDependency] nor [NumVisibleReturns] returns [in_data]
    followed by two copies of [out_data]; no element of [out_grad] is in
    the result unless it is in the other two vectors. *)
Theorem BackwardInputs_convention_default p in_data out_data out_grad :
  override_DeclareBackwardDependency p = None →
  override_NumVisibleReturns p = None →
  Z.of_nat (length out_grad) = NumVisibleReturns p →
  Z.of_nat (length out_data) = NumReturns p →
  BackwardInputs p in_data out_data out_grad
    = Some (in_data ++ out_data ++ out_data).
Proof.
  intros Hp Hv Hgrad Hdata.
  unfold NumVisibleReturns in Hgrad. rewrite Hv in Hgrad. simpl in Hgrad.
  unfold OperatorProperty_NumVisibleReturns in Hgrad.
  assert (length out_grad = length out_data) as Hlen by lia.
  rewrite BackwardInputs_eq, decide_True by lia.
  fold (declared p in_data out_data out_grad).
  rewrite declared_default, Hlen, firstn_all by done.
  rewrite <- at_int_seqZ. do 2 f_equal. rewrite !length_app. lia.
Qed.

End BackwardInputs_further.

Lemma BackwardInputs_ignores_out_grad_witness :
  length ["d"%string] = length ["e"%string] ∧
  BackwardInputs (plain_property (dense_rule 16))
                 ["a"%string] ["c"%string] ["d"%string]
    = BackwardInputs (plain_property (dense_rule 16))
                     ["a"%string] ["c"%string] ["e"%string].
Proof.
  split; [reflexivity|].
  apply (BackwardInputs_ignores_out_grad (plain_property (dense_rule 16))
           ["a"%string] ["c"%string] ["d"%string] ["e"%string]).
  reflexivity.
Defined.

Lemma BackwardInputs_elements_witness :
  BackwardInputs (declaring_property (λ _ _ _, [0; 3]))
                 ["a"; "b"]%string ["c"%string] ["d"%string]
    = Some ["a"; "c"]%string ∧
  "c"%string ∈ ["a"; "c"]%string ∧
  ("c"%string ∈ ["a"; "b"]%string ∨ "c"%string ∈ ["c"%string]).
Proof.
  assert ("c"%string ∈ ["a"; "c"]%string) as Hc by (repeat constructor).
  split; [reflexivity|]. split; [exact Hc|].
  apply (BackwardInputs_elements (declaring_property (λ _ _ _, [0; 3]))
           ["a"; "b"]%string ["c"%string] ["d"%string]
           ["a"; "c"]%string "c"%string).
  - reflexivity.
  - exact Hc.
Defined.

Lemma BackwardInputs_length_witness :
  BackwardInputs (declaring_property (λ _ _ _, [1; 1; 2]))
                 ["a"; "b"]%string ["c"%string] ["d"%string]
    = Some ["b"; "b"; "c"]%string ∧
  length ["b"; "b"; "c"]%string = 3%nat.
Proof.
  split; [reflexivity|].
  apply (BackwardInputs_length (declaring_property (λ _ _ _, [1; 1; 2]))
           ["a"; "b"]%string ["c"%string] ["d"%string]
           ["b"; "b"; "c"]%string).
  reflexivity.
Defined.

Lemma BackwardInputs_negative_index_witness :
  -1 ∈ declared (declaring_property (λ _ _ _, [0; -1]))
         ["a"; "b"]%string ["c"%string] ["d"%string] ∧
  - 2 ^ 31 ≤ -1 < 0 ∧
  2 + 1 + 1 < 2 ^ 63 ∧
  BackwardInputs (declaring_property (λ _ _ _, [0; -1]))
                 ["a"; "b"]%string ["c"%string] ["d"%string] = None.
Proof.
  assert (-1 ∈ declared (declaring_property (λ _ _ _, [0; -1]))
            ["a"; "b"]%string ["c"%string] ["d"%string]) as Hin
    by (repeat constructor).
  split; [exact Hin|]. split; [lia|]. split; [lia|].
  apply (BackwardInputs_negative_index
           (declaring_property (λ _ _ _, [0; -1]))
           ["a"; "b"]%string ["c"%string] ["d"%string] (-1)).
  - exact Hin.
  - lia.
  - simpl. lia.
Defined.

Lemma BackwardInputs_parameter_roles_witness :
  (length ["d"%string] ≤ length ["c"%string])%nat ∧
  override_DeclareBackwardDependency
    (declaring_property (λ out_grad _ _, out_grad))
    = Some (λ out_grad _ _, out_grad) ∧
  BackwardInputs (declaring_property (λ out_grad _ _, out_grad))
                 ["a"; "b"]%string ["c"%string] ["d"%string]
    = Some ["a"; "b"]%string.
Proof.
  split; [simpl; lia|]. split; [reflexivity|].
  apply (BackwardInputs_parameter_roles
           (declaring_property (λ out_grad _ _, out_grad))
           ["a"; "b"]%string ["c"%string] ["d"%string]).
  - simpl. lia.
  - reflexivity.
Defined.

Lemma BackwardInputs_app_witness :
  (∀ og id od,
     DeclareBackwardDependency
       (declaring_property (λ og id _, og ++ id)) og id od
     = DeclareBackwardDependency (declaring_property (λ og _ _, og)) og id od
       ++ DeclareBackwardDependency
            (declaring_property (λ _ id _, id)) og id od) ∧
  BackwardInputs (declaring_property (λ og id _, og ++ id))
                 ["a"; "b"]%string ["c"%string] ["d"%string]
    = Some ["a"; "b"; "c"]%string.
Proof.
  split; [intros; reflexivity|].
  apply (BackwardInputs_app
           (declaring_property (λ og id _, og ++ id))
           (declaring_property (λ og _ _, og))
           (declaring_property (λ _ id _, id))
           ["a"; "b"]%string ["c"%string] ["d"%string]).
  intros; reflexivity.
Defined.

Lemma BackwardInputs_default_defined_iff_witness :
  override_DeclareBackwardDependency (plain_property (dense_rule 16)) = None ∧
  (is_Some (BackwardInputs (plain_property (dense_rule 16))
                           ["a"%string] ["c"%string] ["d"; "e"]%string)
   ↔ (2 ≤ 1)%nat).
Proof.
  split; [reflexivity|].
  apply (BackwardInputs_default_defined_iff (plain_property (dense_rule 16))
           ["a"%string] ["c"%string] ["d"; "e"]%string).
  reflexivity.
Defined.

Lemma BackwardInputs_convention_witness :
  override_DeclareBackwardDependency (visible_property 2) = None ∧
  Z.of_nat (length ["d"; "e"]%string) = NumVisibleReturns (visible_property 2) ∧
  Z.of_nat (length ["c"%string]) = NumReturns (visible_property 2) ∧
  (is_Some (BackwardInputs (visible_property 2)
                           ["a"%string] ["c"%string] ["d"; "e"]%string)
   ↔ 2 ≤ 1).
Proof.
  split; [reflexivity|]. split; [reflexivity|]. split; [reflexivity|].
  apply (BackwardInputs_convention (visible_property 2)
           ["a"%string] ["c"%string] ["d"; "e"]%string); reflexivity.
Defined.

Lemma BackwardInputs_convention_default_witness :
  override_DeclareBackwardDependency (plain_property (dense_rule 16)) = None ∧
  override_NumVisibleReturns (plain_property (dense_rule 16)) = None ∧
  Z.of_nat (length ["d"%string])
    = NumVisibleReturns (plain_property (dense_rule 16)) ∧
  Z.of_nat (length ["c"%string]) = NumReturns (plain_property (dense_rule 16)) ∧
  BackwardInputs (plain_property (dense_rule 16))
                 ["a"; "b"]%string ["c"%string] ["d"%string]
    = Some ["a"; "b"; "c"; "c"]%string.
Proof.
  split; [reflexivity|]. split; [reflexivity|].
  split; [reflexivity|]. split; [reflexivity|].
  apply (BackwardInputs_convention_default (plain_property (dense_rule 16))
           ["a"; "b"]%string ["c"%string] ["d"%string]); reflexivity.
Defined.

(** X13.  For an object that does not override
    [DeclareBackwardDependency] the order of the three role arguments
    shows in the order of the result only: called with the index vectors
    in the order [BackwardInputs] passes them, it returns a rearrangement
    of what it returns when each vector is passed for the parameter of its
    own name. *)
Theorem DeclareBackwardDependency_default_roles {R} (p : OperatorProperty R)
    (in_data_idx out_data_idx out_grad_idx : list Z) :
  override_DeclareBackwardDependency p = None →
  DeclareBackwardDependency p in_data_idx out_data_idx out_grad_idx
    ≡ₚ DeclareBackwardDependency p out_grad_idx in_data_idx out_data_idx.
Proof.
  intros Hp. unfold DeclareBackwardDependency. rewrite Hp. simpl.
  unfold OperatorProperty_DeclareBackwardDependency, insert_at_end.
  rewrite <- !app_assoc.
  by rewrite (Permutation_app_comm out_grad_idx), <- app_assoc.
Qed.

Lemma DeclareBackwardDependency_default_roles_witness :
  override_DeclareBackwardDependency (plain_property (dense_rule 16)) = None ∧
  DeclareBackwardDependency (plain_property (dense_rule 16)) [0; 1] [2] [3]
    ≡ₚ DeclareBackwardDependency (plain_property (dense_rule 16))
         [3] [0; 1] [2].
Proof.
  split; [reflexivity|].
  apply (DeclareBackwardDependency_default_roles
           (plain_property (dense_rule 16)) [0; 1] [2] [3]).
  reflexivity.
Defined.
